(** * beta-shrinkage: the estimators and combiners of [src/beta.py]

    A shallow embedding of the module [beta.py] and the properties of its
    specification.

    Conventions of the embedding.
    - A numpy float is idealised as an exact rational ([Qc], canonical
      rationals with Leibniz equality); rounding, overflow and underflow are
      not modelled.  Where the source can produce the IEEE specials (the
      division by a zero residual in the BMA weights) the values are carried
      in [fnum], which adds the infinities and NaN.
    - A column vector ([n x 1] array) is a [list Qc]; a two-column array is a
      list of rows.
    - A Python exception is the [Err] branch of [result]; a method of an
      object returns its result together with the object after the call.
    - The numerical library calls whose value is not rational ([np.exp],
      [np.sqrt]-based statistics, [np.power], [np.linalg.pinv]) are
      parameters of the development (record [NumLib]). *)

From Stdlib Require Import List ZArith QArith Qcanon Lia Lqa Bool.
Import ListNotations.

Set Implicit Arguments.

(** ** Python values: exceptions, slices, ranges *)

Inductive exn : Type :=
| LinAlgError      (* numpy.linalg.LinAlgError: singular matrix *)
| ValueError       (* shape mismatch, negative dimension *)
| IndexError
| ZeroDivisionError.

Inductive result (A : Type) : Type :=
| Ok (a : A)
| Err (e : exn).
Arguments Ok {A} a.
Arguments Err {A} e.

Definition bind {A B} (r : result A) (k : A -> result B) : result B :=
  match r with
  | Ok a => k a
  | Err e => Err e
  end.

Notation "x <- r ;; k" := (bind r (fun x => k))
  (at level 61, r at next level, right associativity).

(** [mapM f l]: the list comprehension [[f(x) for x in l]], stopping at the
    first element on which [f] raises. *)
Fixpoint mapM {A B} (f : A -> result B) (l : list A) : result (list B) :=
  match l with
  | [] => Ok []
  | x :: xs => y <- f x ;; ys <- mapM f xs ;; Ok (y :: ys)
  end.

(** A slice bound [k] on a sequence of length [n]: a negative bound counts
    from the end, and every bound is clamped to [0 .. n]. *)
Definition slice_bound (n : nat) (k : Z) : nat :=
  if (k <? 0)%Z then Z.to_nat (Z.max 0 (Z.of_nat n + k))
  else Nat.min (Z.to_nat k) n.

(** [l[:k]] and [l[k:]]. *)
Definition slice_to {A} (k : Z) (l : list A) : list A :=
  firstn (slice_bound (length l) k) l.

Definition slice_from {A} (k : Z) (l : list A) : list A :=
  skipn (slice_bound (length l) k) l.

(** [range(k)]: empty when [k <= 0]. *)
Definition py_range (k : Z) : list Z :=
  map Z.of_nat (seq 0 (Z.to_nat k)).

(** [l] is a strict prefix of [l']. *)
Definition strict_prefix {A} (l l' : list A) : Prop :=
  exists x rest, l' = l ++ x :: rest.

(** ** The window generator *)

(** [BetaForecastCombination._generate_estimation_windows]:
    [[data[: self.window + i] for i in range(data.shape[0] - self.window)]]. *)
Definition generate_estimation_windows {A} (window : Z) (data : list A)
  : list (list A) :=
  map (fun i => slice_to (window + i) data)
      (py_range (Z.of_nat (length data) - window)).

(** ** Numbers *)

Open Scope Qc_scope.

(** Literals: an integer, and a decimal fraction [n/d]. *)
Definition qz (z : Z) : Qc := Q2Qc (inject_Z z).
Definition qf (n : Z) (d : positive) : Qc := Q2Qc (n # d).
Definition qn (n : nat) : Qc := qz (Z.of_nat n).

Definition qeqb (a b : Qc) : bool := Qeq_bool a b.
Definition qltb (a b : Qc) : bool :=
  match Qccompare a b with Lt => true | _ => false end.
Definition qleb (a b : Qc) : bool :=
  match Qccompare a b with Gt => false | _ => true end.

(** [np.minimum], [np.maximum], [np.square] on one entry. *)
Definition qmin (a b : Qc) : Qc := if qleb a b then a else b.
Definition qmax (a b : Qc) : Qc := if qleb a b then b else a.
Definition square (x : Qc) : Qc := x * x.

(** [np.sum] and [np.mean] of a vector. *)
Definition qsum (l : list Qc) : Qc := fold_right Qcplus 0 l.
Definition mean (l : list Qc) : Qc := qsum l / qn (length l).

(** The product of a row with a coefficient vector. *)
Fixpoint dot (r b : list Qc) : Qc :=
  match r, b with
  | x :: r', y :: b' => x * y + dot r' b'
  | _, _ => 0
  end.

(** Elementwise operation on two column vectors with numpy's
    broadcasting: equal lengths, or one operand of length one. *)
Definition broadcast2 (f : Qc -> Qc -> Qc) (a b : list Qc)
  : result (list Qc) :=
  if Nat.eqb (length a) (length b)
  then Ok (map (fun p => f (fst p) (snd p)) (combine a b))
  else match a, b with
       | [x], _ => Ok (map (f x) b)
       | _, [y] => Ok (map (fun x => f x y) a)
       | _, _ => Err ValueError
       end.

(** [np.hstack] of two column vectors: the rows must agree in number. *)
Definition hstack2 (a b : list Qc) : result (list (Qc * Qc)) :=
  if Nat.eqb (length a) (length b) then Ok (combine a b) else Err ValueError.

(** [add_intercept]: a column of ones in front of the matrix. *)
Definition add_intercept (data : list (list Qc)) : list (list Qc) :=
  map (fun row => 1 :: row) data.

(** The numerical library, as far as its values are not rational
    functions of the inputs. *)
Record NumLib : Type := {
  np_exp : Qc -> Qc;
  np_sqrt : Qc -> Qc;
  np_power : Qc -> Qc -> Qc;
  (** [np.std(x)] *)
  np_std : list Qc -> Qc;
  (** [np.corrcoef(x, y)[0, 1]] *)
  np_corrcoef : list Qc -> list Qc -> Qc;
  (** [np.linalg.pinv(X) @ y], one coefficient per column of [X] *)
  np_pinv_at : list (list Qc) -> list Qc -> list Qc
}.

(** ** A state and exception monad for methods *)

Definition M (S A : Type) : Type := S -> result A * S.

Definition ret {S A} (a : A) : M S A := fun s => (Ok a, s).
Definition raise {S A} (e : exn) : M S A := fun s => (Err e, s).
Definition lift {S A} (r : result A) : M S A := fun s => (r, s).
Definition mbind {S A B} (m : M S A) (k : A -> M S B) : M S B :=
  fun s => match m s with
           | (Ok a, s') => k a s'
           | (Err e, s') => (Err e, s')
           end.
Definition get {S} : M S S := fun s => (Ok s, s).

Notation "x <-- m ;; k" := (mbind m (fun x => k))
  (at level 61, m at next level, right associativity).

(** ** class Beta *)

Record Beta : Type := mkBeta {
  exog : list Qc;
  endog : list Qc;
  n_obs : nat;
  exog_mat : list (Qc * Qc)
}.

(** [Beta.__init__]. *)
Definition Beta_init (exog endog : list Qc) : Beta :=
  {| exog := exog;
     endog := endog;
     n_obs := length exog;
     exog_mat := map (fun x => (1, x)) exog |}.

(** The arrays [_weighted_ols] receives for [X] are [self.exog_mat] or a
    basic slice of it, which numpy passes as a view on the same memory. *)
Inductive xref : Type :=
| XFull          (* self.exog_mat *)
| XTail          (* self.exog_mat[1:, :] *)
| XInit.         (* self.exog_mat[:-1, :] *)

Definition deref (self : Beta) (r : xref) : list (Qc * Qc) :=
  match r with
  | XFull => exog_mat self
  | XTail => slice_from 1 (exog_mat self)
  | XInit => slice_to (-1) (exog_mat self)
  end.

Definition set_exog_mat (self : Beta) (X : list (Qc * Qc)) : Beta :=
  {| exog := exog self; endog := endog self; n_obs := n_obs self;
     exog_mat := X |}.

(** Writing through the view. *)
Definition assign (self : Beta) (r : xref) (X : list (Qc * Qc)) : Beta :=
  match r with
  | XFull => set_exog_mat self X
  | XTail => set_exog_mat self (slice_to 1 (exog_mat self) ++ X)
  | XInit => set_exog_mat self (X ++ slice_from (-1) (exog_mat self))
  end.

(** [X -= np.mean(X, axis=0)]. *)
Definition demean_columns (X : list (Qc * Qc)) : list (Qc * Qc) :=
  let m1 := mean (map fst X) in
  let m2 := mean (map snd X) in
  map (fun r => (fst r - m1, snd r - m2)) X.

(** [np.linalg.inv] of a 2 x 2 matrix [[a b] [c d]]. *)
Definition inv2 (a b c d : Qc) : result (Qc * Qc * (Qc * Qc)) :=
  let det := a * d - b * c in
  if qeqb det 0 then Err LinAlgError
  else Ok ((d / det, - b / det), (- c / det, a / det)).

(** Entry [(i, j)] of [X.T @ w @ X]: the sum of [(X_ti * w_t) * X_tj]. *)
Fixpoint xtwx (f g : Qc * Qc -> Qc) (X : list (Qc * Qc)) (w : list Qc) : Qc :=
  match X, w with
  | r :: X', wt :: w' => f r * wt * g r + xtwx f g X' w'
  | _, _ => 0
  end.

(** Row [(m1, m2)] of [inv(..) @ X.T @ w @ y]: the sum of
    [((m1 * X_t0 + m2 * X_t1) * w_t) * y_t]. *)
Fixpoint inv_xt_w_y (m1 m2 : Qc) (X : list (Qc * Qc)) (w y : list Qc) : Qc :=
  match X, w, y with
  | r :: X', wt :: w', yt :: y' =>
      (m1 * fst r + m2 * snd r) * wt * yt + inv_xt_w_y m1 m2 X' w' y'
  | _, _, _ => 0
  end.

(** The value [np.linalg.inv(X.T @ w @ X) @ X.T @ w @ y] with
    [w = np.diag(w)], and [w] all ones when it is [None]. *)
Definition wls (X : list (Qc * Qc)) (y : list Qc) (w : option (list Qc))
  : result (Qc * Qc) :=
  let w := match w with
           | None => repeat 1 (length X)
           | Some w => w
           end in
  if negb (Nat.eqb (length w) (length X)) then Err ValueError else
  inv <- inv2 (xtwx fst fst X w) (xtwx fst snd X w)
              (xtwx snd fst X w) (xtwx snd snd X w) ;;
  if negb (Nat.eqb (length y) (length X)) then Err ValueError else
  Ok (inv_xt_w_y (fst (fst inv)) (snd (fst inv)) X w y,
      inv_xt_w_y (fst (snd inv)) (snd (snd inv)) X w y).

(** [Beta._weighted_ols]. With [demean] the subtraction is in place, so
    it is written back through the view [X]. *)
Definition weighted_ols (X : xref) (y : list Qc) (w : option (list Qc))
    (demean : bool) : M Beta (Qc * Qc) :=
  fun self =>
    let self' := if demean then assign self X (demean_columns (deref self X))
                 else self in
    (wls (deref self' X) y w, self').

Section Estimators.

Variable L : NumLib.

(** [Beta.ols]: [np.ravel(..)[-1]] is the slope, the last of the two
    coefficients. *)
Definition ols (adjusted : bool) : M Beta Qc :=
  self <-- get ;;
  b <-- weighted_ols XFull (endog self) None false ;;
  let beta := snd b in
  if adjusted then ret (qf 67 100 * beta + qf 33 100) else ret beta.

(** [Beta.vasicek]. *)
Definition vasicek (beta_prior se_prior : Qc) : M Beta Qc :=
  self <-- get ;;
  beta <-- weighted_ols XFull (endog self) None false ;;
  self <-- get ;;
  let endog_hat :=
    map (fun r => fst r * fst beta + snd r * snd beta) (exog_mat self) in
  resid <-- lift (broadcast2 Qcminus (endog self) endog_hat) ;;
  let s_yy := qsum (map square resid) / (qn (n_obs self) - qz 2) in
  let mx := mean (exog self) in
  let s_xx := qsum (map (fun x => square (x - mx)) (exog self)) in
  let std_error := np_sqrt L (s_yy / s_xx) in
  let num := beta_prior / square se_prior + snd beta / square std_error in
  let den := 1 / square se_prior + 1 / square std_error in
  ret (num / den).

(** [np.clip(a, lo, hi)], which is [np.minimum(hi, np.maximum(a, lo))]. *)
Definition np_clip (a lo hi : list Qc) : result (list Qc) :=
  t <- broadcast2 qmax a lo ;;
  broadcast2 qmin hi t.

(** [np.exp(-rho * np.arange(n)[::-1])]. *)
Definition decay_weights (rho : Qc) (n : nat) : list Qc :=
  map (fun k => np_exp L (- rho * qn k)) (rev (seq 0 n)).

(** [Beta.welch]. *)
Definition welch (delta rho : Qc) : M Beta Qc :=
  self <-- get ;;
  let bm_min := map (fun x => (1 - delta) * x) (exog self) in
  let bm_max := map (fun x => (1 + delta) * x) (exog self) in
  lower <-- lift (broadcast2 qmin bm_min bm_max) ;;
  upper <-- lift (broadcast2 qmax bm_min bm_max) ;;
  endog_wins <-- lift (np_clip (endog self) lower upper) ;;
  let weights := decay_weights rho (n_obs self) in
  beta <-- weighted_ols XFull endog_wins (Some weights) false ;;
  ret (snd beta).

(** [np.corrcoef(x, y)[0, 1]]: the two samples are stacked first. *)
Definition corrcoef01 (x y : list Qc) : result Qc :=
  if Nat.eqb (length x) (length y) then Ok (np_corrcoef L x y)
  else Err ValueError.

(** [Beta.robeco]. *)
Definition robeco (corr_target vol_target gamma phi : Qc) : M Beta Qc :=
  self <-- get ;;
  corr <-- lift (corrcoef01 (exog self) (endog self)) ;;
  let corr_shrink := (1 - gamma) * corr + gamma * corr_target in
  let vol_ratio := np_std L (endog self) / np_std L (exog self) in
  let vol_shrink := (1 - phi) * vol_ratio + phi * vol_target in
  ret (corr_shrink * vol_shrink).

(** [Beta.scholes_williams]. *)
Definition scholes_williams : M Beta Qc :=
  self <-- get ;;
  b_lead <-- weighted_ols XTail (slice_to (-1) (endog self)) None false ;;
  self <-- get ;;
  b_lag <-- weighted_ols XInit (slice_from 1 (endog self)) None false ;;
  self <-- get ;;
  b <-- weighted_ols XFull (endog self) None false ;;
  self <-- get ;;
  auto_corr <-- lift (corrcoef01 (slice_from 1 (exog self))
                                 (slice_to (-1) (exog self))) ;;
  ret ((snd b_lag + snd b + snd b_lead) / (1 + qz 2 * auto_corr)).

(** The default arguments of the estimators. *)
Definition vasicek_default : M Beta Qc := vasicek 1 (qf 1 2).
Definition welch_default : M Beta Qc := welch (qz 3) 0.
Definition aged_welch : M Beta Qc := welch (qz 3) (qf 2 256).

End Estimators.

(** ** class BetaForecastCombination *)

Record BetaForecastCombination : Type := mkCombination {
  c_exog : list Qc;                 (* self.exog *)
  c_endog : list Qc;                (* self.endog *)
  window : Z;
  c_n_obs : nat;                    (* self.n_obs *)
  weights : option (list Qc)
}.

Definition default_window : Z := 21.

(** [BetaForecastCombination.__init__]. *)
Definition BetaForecastCombination_init (exog endog : list Qc) (window : Z)
  : BetaForecastCombination :=
  {| c_exog := exog;
     c_endog := endog;
     window := window;
     c_n_obs := length endog;
     weights := None |}.

(** [self.weights = w]. *)
Definition set_weights (w : list Qc) : M BetaForecastCombination unit :=
  fun self =>
    (Ok tt,
     {| c_exog := c_exog self; c_endog := c_endog self;
        window := window self; c_n_obs := c_n_obs self;
        weights := Some w |}).

(** [list(map(lambda x: x.m(), beta_obj))]: the method runs on each object
    in turn; an exception leaves the later objects untouched. *)
Fixpoint map_method (m : M Beta Qc) (objs : list Beta)
  : result (list Qc) * list Beta :=
  match objs with
  | [] => (Ok [], [])
  | o :: os =>
      match m o with
      | (Ok v, o') =>
          match map_method m os with
          | (Ok vs, os') => (Ok (v :: vs), o' :: os')
          | (Err e, os') => (Err e, o' :: os')
          end
      | (Err e, o') => (Err e, o' :: os)
      end
  end.

(** [np.hstack] of column vectors of one length: row [i] collects entry
    [i] of every column. *)
Definition hstack_cols (cols : list (list Qc)) : list (list Qc) :=
  match cols with
  | [] => []
  | c :: _ => map (fun i => map (fun col => nth i col 0) cols)
                  (seq 0 (length c))
  end.

(** [np.ones(shape)]: a negative dimension is refused. *)
Definition np_ones_check (rows : Z) : result unit :=
  if (rows <? 0)%Z then Err ValueError else Ok tt.

(** Column [j] of a matrix, and the columns [combo] of a matrix. *)
Definition column (j : nat) (m : list (list Qc)) : list Qc :=
  map (fun row => nth j row 0) m.

Definition columns (combo : list nat) (m : list (list Qc))
  : list (list Qc) :=
  map (fun row => map (fun j => nth j row 0) combo) m.

Section Combiner.

Variable L : NumLib.

(** [BetaForecastCombination._generate_betas], with [corr_target] and
    [vol_target] as the keyword arguments. *)
Definition generate_betas_kw (windows : list (list (Qc * Qc)))
    (corr_target vol_target : Qc) : result (list (list Qc)) :=
  let beta_obj := map (fun i => Beta_init (map fst i) (map snd i)) windows in
  let c := corr_target in
  let v := vol_target in
  fst ((c_ols <-- map_method (ols false) ;;
        c_adj_ols <-- map_method (ols true) ;;
        c_vasicek <-- map_method (vasicek_default L) ;;
        c_welch <-- map_method (welch_default L) ;;
        c_aged_welch <-- map_method (aged_welch L) ;;
        c_robeco <-- map_method (robeco L c v (qf 1 2) (qf 2 10)) ;;
        ret (hstack_cols
               [c_ols; c_adj_ols; c_vasicek; c_welch; c_aged_welch; c_robeco]))
       beta_obj).

(** The call without keyword arguments: [kwargs.get] gives 0.5 and 2. *)
Definition generate_betas (windows : list (list (Qc * Qc)))
  : result (list (list Qc)) :=
  generate_betas_kw windows (qf 1 2) (qz 2).

(** [BetaForecastCombination.fit]. *)
Definition fit : M BetaForecastCombination Qc :=
  self <-- get ;;
  let cutoff := (Z.of_nat (c_n_obs self) - window self)%Z in
  train_data <-- lift (hstack2 (slice_to cutoff (c_exog self))
                               (slice_to cutoff (c_endog self))) ;;
  test_data <-- lift (hstack2 (slice_from cutoff (c_exog self))
                              (slice_from cutoff (c_endog self))) ;;
  let training_windows :=
    generate_estimation_windows (window self) train_data in
  betas <-- lift (generate_betas training_windows) ;;
  _ <-- lift (np_ones_check
                (Z.of_nat (length train_data) - window self - 1)) ;;
  let X_train := add_intercept (slice_to (-1) betas) in
  _ <-- set_weights (np_pinv_at L X_train (column 0 (slice_from 1 betas))) ;;
  betas_test <-- lift (generate_betas [test_data]) ;;
  let X_test := add_intercept betas_test in
  self <-- get ;;
  match X_test, weights self with
  | r :: _, Some w => ret (dot r w)
  | _, _ => raise IndexError
  end.

End Combiner.

(** ** class BetaBMA(BetaForecastCombination) *)

Record BetaBMA : Type := mkBMA {
  base : BetaForecastCombination;
  shrinkage : option Qc
}.

(** [BetaBMA.__init__]: the parent is initialised by
    [super().__init__(exog, endog)], so with its default window. *)
Definition BetaBMA_init (exog endog : list Qc) (window : Z)
    (shrinkage : option Qc) : BetaBMA :=
  {| base := BetaForecastCombination_init exog endog default_window;
     shrinkage := shrinkage |}.

(** [itertools.combinations(l, k)]: the [k]-element subsequences of [l],
    in lexicographic order of their positions. *)
Fixpoint combinations {A} (l : list A) (k : nat) : list (list A) :=
  match k, l with
  | O, _ => [[]]
  | S _, [] => []
  | S k', x :: xs => map (cons x) (combinations xs k') ++ combinations xs k
  end.

(** [range(a, b)] on naturals. *)
Definition range2 (a b : nat) : list nat := seq a (b - a).

(** [BetaBMA._generate_beta_combinations]. *)
Definition generate_beta_combinations (data : list Qc) : list (list nat) :=
  let indices := seq 0 (length data) in
  let combos := map (fun i => combinations indices i)
                    (range2 1 (length data)) in
  concat combos.

(** ** Floating-point values with the IEEE specials

    [np.float64] division by zero does not raise: it gives an infinity, or
    NaN for [0/0], and later operations carry them on. The BMA weights
    divide by a residual sum of squares that can be zero, so that step
    is computed in [fnum]. Finite values stay exact; the sign of zero is
    not modelled (a zero divisor counts as [+0]). *)

Inductive fnum : Type :=
| Fin (q : Qc)
| PInf
| NInf
| NaN.

Definition qsign (q : Qc) : comparison := Qccompare q 0.

Definition inf_of_sign (c : comparison) : fnum :=
  match c with
  | Gt => PInf
  | Lt => NInf
  | Eq => NaN
  end.

Definition fadd (x y : fnum) : fnum :=
  match x, y with
  | Fin a, Fin b => Fin (a + b)
  | NaN, _ | _, NaN => NaN
  | PInf, NInf | NInf, PInf => NaN
  | PInf, _ | _, PInf => PInf
  | NInf, _ | _, NInf => NInf
  end.

Definition fmul (x y : fnum) : fnum :=
  match x, y with
  | Fin a, Fin b => Fin (a * b)
  | NaN, _ | _, NaN => NaN
  | Fin a, PInf | PInf, Fin a => inf_of_sign (qsign a)
  | Fin a, NInf | NInf, Fin a => inf_of_sign (CompOpp (qsign a))
  | PInf, PInf | NInf, NInf => PInf
  | PInf, NInf | NInf, PInf => NInf
  end.

Definition fdiv (x y : fnum) : fnum :=
  match x, y with
  | Fin a, Fin b => if qeqb b 0 then inf_of_sign (qsign a) else Fin (a / b)
  | NaN, _ | _, NaN => NaN
  | Fin _, _ => Fin 0
  | PInf, Fin b => if qltb b 0 then NInf else PInf
  | NInf, Fin b => if qltb b 0 then PInf else NInf
  | _, _ => NaN
  end.

Definition fsum (l : list fnum) : fnum := fold_right fadd (Fin 0) l.

Definition is_integer (e : Qc) : bool := Pos.eqb (Qden e) 1.
Definition is_odd_integer (e : Qc) : bool := is_integer e && Z.odd (Qnum e).

Section BMA.

Variable L : NumLib.

(** [np.power(x, e)]. *)
Definition fpower (x : fnum) (e : Qc) : fnum :=
  if qeqb e 0 then Fin 1 else
  match x with
  | Fin b =>
      match qsign b with
      | Gt => Fin (np_power L b e)
      | Eq => if qltb 0 e then Fin 0 else PInf
      | Lt => if is_integer e then Fin (np_power L b e) else NaN
      end
  | PInf => if qltb 0 e then PInf else Fin 0
  | NInf => if qltb 0 e then (if is_odd_integer e then NInf else PInf)
            else Fin 0
  | NaN => NaN
  end.

(** [1 / m] for a Python integer [m]. *)
Definition py_inverse (m : nat) : result Qc :=
  match m with
  | O => Err ZeroDivisionError
  | S _ => Ok (1 / qn m)
  end.

(** The residual sum of squares [np.sum(np.square(y - X @ b))]. *)
Definition ssr (X : list (list Qc)) (b y : list Qc) : Qc :=
  let y_hat := map (fun row => dot row b) X in
  qsum (map (fun p => square (fst p - snd p)) (combine y y_hat)).

(** Step 1 of [BetaBMA.fit]: the restricted model. The product
    [np.linalg.pinv(beta_r) @ beta_w[dof_r:, [0]]] needs as many rows in
    [beta_r] as in the target. *)
Definition restricted_ssr (beta_w : list (list Qc)) (dof_r : Z)
  : result Qc :=
  let beta_r :=
    add_intercept (columns [0%nat] (slice_to (- dof_r) beta_w)) in
  let target := column 0 (slice_from dof_r beta_w) in
  if negb (Nat.eqb (length beta_r) (length target)) then Err ValueError else
  let b_r_hat := np_pinv_at L beta_r target in
  Ok (ssr beta_r b_r_hat target).

(** [l[i] = v]. *)
Fixpoint upd (i : nat) (v : Qc) (l : list Qc) : list Qc :=
  match l, i with
  | [], _ => []
  | _ :: l', O => v :: l'
  | x :: l', S i' => x :: upd i' v l'
  end.

(** [weights[np.array(combo) + 1, :] = b[1:, :]] with [b] the tail of the
    fitted coefficients. *)
Fixpoint scatter (ws : list Qc) (combo : list nat) (b : list Qc)
  : list Qc :=
  match combo, b with
  | j :: combo', v :: b' => scatter (upd (S j) v ws) combo' b'
  | _, _ => ws
  end.

(** One pass of the loop of step 2: the tuple [(len(combo), beta_k, ssr_u)]. *)
Definition subset_model (beta_w beta_s : list (list Qc)) (combo : list nat)
  : result (nat * Qc * Qc) :=
  let beta_u := add_intercept (columns combo (slice_to (-1) beta_w)) in
  let y := column 0 (slice_from 1 beta_w) in
  let b_u_hat := np_pinv_at L beta_u y in
  let ssr_u := ssr beta_u b_u_hat y in
  let zeros := repeat 0 (length (hd [] beta_w) + 1) in
  let weights := scatter (upd 0 (nth 0 b_u_hat 0) zeros) combo (tl b_u_hat) in
  match beta_s with
  | s :: _ => Ok (length combo, dot s weights, ssr_u)
  | [] => Err IndexError
  end.

(** Step 3, one entry of [w_k]:
    [np.power(a_g, 0.5 * p) * np.power(1 + 1 / g * ssr / ssr_r, -0.5 * dof_r)]. *)
Definition model_weight (g a_g ssr_r : Qc) (dof_r : Z) (p : nat) (ssr : Qc)
  : fnum :=
  fmul (fpower (Fin a_g) (qf 1 2 * qn p))
       (fpower (fadd (Fin 1)
                     (fdiv (fmul (fdiv (Fin 1) (Fin g)) (Fin ssr))
                           (Fin ssr_r)))
               (- qf 1 2 * qz dof_r)).

(** [w_final = [w / np.sum(w_k) for w in w_k]]. *)
Definition normalize (w_k : list fnum) : list fnum :=
  map (fun w => fdiv w (fsum w_k)) w_k.

(** Step 4: [np.sum(np.array(models)[:, 1] * w_final)]. The first factor
    has shape [(n,)] and [w_final] has shape [(n, 1)], so the product
    broadcasts to the [n x n] table of all [beta_j * w_i]. *)
Definition combine_forecast (betas : list Qc) (w_final : list fnum) : fnum :=
  fsum (flat_map (fun w => map (fun b => fmul (Fin b) w) betas) w_final).

(** The local variables of [BetaBMA.fit] at its end. *)
Record fit_locals : Type := mkLocals {
  training_windows : list (list (Qc * Qc));
  beta_w : list (list Qc);
  combos : list (list nat);
  l_g : Qc;
  l_a_g : Qc;
  l_ssr_r : Qc;
  models : list (nat * Qc * Qc);
  w_k : list fnum;
  w_final : list fnum;
  beta_bma : fnum
}.

(** The body of [BetaBMA.fit] after [beta_w] and [beta_s] are there. *)
Definition fit_steps (tw : list (list (Qc * Qc)))
    (beta_w beta_s : list (list Qc)) (dof_r : Z) : result fit_locals :=
  row0 <- match beta_w with
          | r :: _ => Ok r
          | [] => Err IndexError
          end ;;
  let combos := generate_beta_combinations row0 in
  g <- py_inverse (Nat.min (length tw) (length combos)) ;;
  let a_g := g / (1 + g) in
  ssr_r <- restricted_ssr beta_w dof_r ;;
  models <- mapM (subset_model beta_w beta_s) combos ;;
  let w_k := map (fun m => model_weight g a_g ssr_r dof_r (fst (fst m)) (snd m))
                 models in
  let w_final := normalize w_k in
  Ok {| training_windows := tw; beta_w := beta_w; combos := combos;
        l_g := g; l_a_g := a_g; l_ssr_r := ssr_r; models := models;
        w_k := w_k; w_final := w_final;
        beta_bma := combine_forecast (map (fun m => snd (fst m)) models)
                                     w_final |}.

(** [BetaBMA.fit] up to its return, with its local variables. *)
Definition BMA_fit_locals (dof_r : Z) : M BetaBMA fit_locals :=
  self <-- get ;;
  data_matrix <-- lift (hstack2 (c_exog (base self)) (c_endog (base self))) ;;
  let training_windows :=
    generate_estimation_windows (window (base self)) data_matrix in
  beta_w <-- lift (generate_betas L training_windows) ;;
  bs <-- lift (generate_betas L [data_matrix]) ;;
  let beta_s := add_intercept bs in
  lift (fit_steps training_windows beta_w beta_s dof_r).

(** [BetaBMA.fit]. *)
Definition BMA_fit (dof_r : Z) : M BetaBMA fnum :=
  locals <-- BMA_fit_locals dof_r ;;
  ret (beta_bma locals).

End BMA.

(** ** A rational instance of the numerical library

    The theorems below hold for every [NumLib]. To run the model on a
    concrete input an instance is needed; this one replaces each primitive
    by a rational function: the second-order expansion of the exponential
    (exact at 0, positive everywhere), the constant 1 for the power and
    the standard deviation, 0 for the correlation, and the zero
    coefficient vector for the least-squares solution. It is used only
    at inputs where the values of the primitives do not decide the
    outcome. *)

Definition rational_lib : NumLib :=
  {| np_exp := fun x => 1 + x + x * x / qz 2;
     np_sqrt := fun x => x;
     np_power := fun _ _ => 1;
     np_std := fun _ => 1;
     np_corrcoef := fun _ _ => 0;
     np_pinv_at := fun X _ => repeat 0 (length (hd [] X)) |}.

(** ** The specification's formulas, for comparison with the code *)





(** The order of the enumeration: by size, then lexicographic. *)
Fixpoint lex_ltb (a b : list nat) : bool :=
  match a, b with
  | [], [] => false
  | [], _ :: _ => true
  | _ :: _, [] => false
  | x :: a', y :: b' => Nat.ltb x y || (Nat.eqb x y && lex_ltb a' b')
  end.

Definition combo_ltb (a b : list nat) : bool :=
  Nat.ltb (length a) (length b)
  || (Nat.eqb (length a) (length b) && lex_ltb a b).

Fixpoint sorted_by (lt : list nat -> list nat -> bool) (l : list (list nat))
  : bool :=
  match l with
  | [] => true
  | a :: l' => match l' with
               | [] => true
               | b :: _ => lt a b && sorted_by lt l'
               end
  end.

(** A subset of [{0 .. n-1}] as a strictly increasing list of indices. *)
Fixpoint increasing_below (n : nat) (lo : nat) (c : list nat) : bool :=
  match c with
  | [] => true
  | x :: c' => Nat.leb lo x && Nat.ltb x n && increasing_below n (S x) c'
  end.

Definition count_size (k : nat) (l : list (list nat)) : nat :=
  length (filter (fun c => Nat.eqb (length c) k) l).

Fixpoint binomial (n k : nat) : nat :=
  match n, k with
  | _, O => 1
  | O, S _ => 0
  | S n', S k' => binomial n' k' + binomial n' k
  end.

(** A list of index lists has no repetition. *)
Definition combo_eqb (a b : list nat) : bool :=
  if list_eq_dec Nat.eq_dec a b then true else false.

Fixpoint nodupb (l : list (list nat)) : bool :=
  match l with
  | [] => true
  | x :: l' => negb (existsb (combo_eqb x) l') && nodupb l'
  end.


(** The absolute value, for the bound [|endog| <= 3 |exog|]. *)
Definition qabs (x : Qc) : Qc := if qltb x 0 then - x else x.

(** ** Concrete inputs *)

(** Eight paired returns whose last three market returns are zero. *)
Definition exog8 : list Qc := map qz [0; 1; 3; 4; 2; 0; 0; 0]%Z.
Definition endog8 : list Qc := map qz [1; 2; 2; 5; 3; 1; 3; 2]%Z.

(** Twenty-three paired returns. *)
Definition exog23 : list Qc :=
  map qz [1; -2; 3; 0; 2; -1; 4; 1; -3; 2; 0; 1; -1; 3; 2; -2; 1; 0; 2;
          -1; 1; 3; -2]%Z.
Definition endog23 : list Qc :=
  map qz [2; -1; 3; 1; 1; -2; 5; 0; -4; 3; 1; 0; -1; 4; 1; -3; 2; 1; 1;
          -2; 2; 3; -1]%Z.

(** A series with [endog = -3 exog]. *)
Definition exog3 : list Qc := map qz [1; 2; 3]%Z.
Definition endog3 : list Qc := map qz [-3; -6; -9]%Z.

Definition bma23 : BetaBMA := BetaBMA_init exog23 endog23 21 None.

(** A series within the band [-2 exog <= endog <= 4 exog]. *)
Definition endog3_band : list Qc := map qz [2; 3; 7]%Z.

(** A market series one observation longer than the asset series. *)
Definition combination_mismatch : BetaForecastCombination :=
  BetaForecastCombination_init (qz 5 :: exog8) endog8 3.
Definition bma_mismatch : BetaBMA :=
  BetaBMA_init (qz 5 :: exog23) endog23 21 None.
(** ** Lemmas on slices and windows *)

Lemma slice_bound_nonneg n k :
  (0 <= k <= Z.of_nat n)%Z -> slice_bound n k = Z.to_nat k.
Proof.
  intros H. unfold slice_bound.
  destruct (Z.ltb_spec k 0); lia.
Qed.

Lemma slice_to_nonneg {A} (l : list A) k :
  (0 <= k <= Z.of_nat (length l))%Z -> slice_to k l = firstn (Z.to_nat k) l.
Proof.
  intros H. unfold slice_to. now rewrite slice_bound_nonneg.
Qed.

Lemma py_range_length k : length (py_range k) = Z.to_nat k.
Proof. unfold py_range. now rewrite length_map, length_seq. Qed.

Lemma py_range_nth k i d :
  (i < Z.to_nat k)%nat -> nth i (py_range k) d = Z.of_nat i.
Proof.
  intros H. unfold py_range.
  rewrite nth_indep with (d' := Z.of_nat 0)
    by (rewrite length_map, length_seq; exact H).
  rewrite map_nth, seq_nth by exact H. reflexivity.
Qed.

Lemma generate_estimation_windows_length {A} w (data : list A) :
  length (generate_estimation_windows w data)
  = Z.to_nat (Z.of_nat (length data) - w).
Proof.
  unfold generate_estimation_windows. now rewrite length_map, py_range_length.
Qed.

Lemma generate_estimation_windows_nth {A} w (data : list A) i d :
  (i < Z.to_nat (Z.of_nat (length data) - w))%nat ->
  nth i (generate_estimation_windows w data) d
  = slice_to (w + Z.of_nat i) data.
Proof.
  intros H. unfold generate_estimation_windows.
  rewrite nth_indep with (d' := slice_to (w + 0%Z) data)
    by (rewrite length_map, py_range_length; exact H).
  rewrite (map_nth (fun i => slice_to (w + i) data)).
  now rewrite py_range_nth.
Qed.

Lemma firstn_strict_prefix {A} (l : list A) k :
  (k < length l)%nat -> strict_prefix (firstn k l) (firstn (S k) l).
Proof.
  revert k. induction l as [|a l IH]; intros k H; simpl in H; [lia|].
  destruct k as [|k].
  - exists a, []. destruct l; reflexivity.
  - destruct (IH k ltac:(lia)) as (x & rest & E).
    exists x, rest. change (firstn (S (S k)) (a :: l)) with (a :: firstn (S k) l).
    rewrite E. reflexivity.
Qed.

Lemma slice_partition {A} (l : list A) k :
  (length (slice_to k l) + length (slice_from k l) = length l)%nat.
Proof.
  unfold slice_to, slice_from.
  rewrite length_firstn, length_skipn. lia.
Qed.

(** ** The window generator (C7) *)

(** C7. Over a series of length [n] and a window size [w] with
    [0 <= w <= n], the generator returns exactly [n - w] windows; window [i]
    is the first [w + i] observations, has length [w + i], and is a strict
    prefix of window [i + 1]. *)
Theorem generate_estimation_windows_spec :
  forall (A : Type) (data : list A) (w : Z),
    (0 <= w <= Z.of_nat (length data))%Z ->
    Z.of_nat (length (generate_estimation_windows w data))
    = (Z.of_nat (length data) - w)%Z
    /\ forall i : nat,
        (Z.of_nat i < Z.of_nat (length data) - w)%Z ->
        nth i (generate_estimation_windows w data) []
        = firstn (Z.to_nat w + i) data
        /\ length (nth i (generate_estimation_windows w data) [])
           = (Z.to_nat w + i)%nat
        /\ ((Z.of_nat (S i) < Z.of_nat (length data) - w)%Z ->
            strict_prefix (nth i (generate_estimation_windows w data) [])
                          (nth (S i) (generate_estimation_windows w data) [])).
Proof.
  intros A data w Hw.
  assert (Hnth : forall i : nat,
             (Z.of_nat i < Z.of_nat (length data) - w)%Z ->
             nth i (generate_estimation_windows w data) []
             = firstn (Z.to_nat w + i) data).
  { intros i Hi.
    rewrite generate_estimation_windows_nth by lia.
    rewrite slice_to_nonneg by lia.
    f_equal. lia. }
  split.
  - rewrite generate_estimation_windows_length. lia.
  - intros i Hi. split; [now apply Hnth|]. split.
    + rewrite Hnth by exact Hi. rewrite length_firstn. lia.
    + intros Hi'. rewrite (Hnth i Hi), (Hnth (S i) Hi').
      replace (Z.to_nat w + S i)%nat with (S (Z.to_nat w + i)) by lia.
      apply firstn_strict_prefix. lia.
Qed.

Lemma generate_estimation_windows_spec_witness :
  (0 <= 2 <= Z.of_nat (length [1; 2; 3; 4; 5]%nat))%Z
  /\ Z.of_nat (length (generate_estimation_windows 2 [1; 2; 3; 4; 5]%nat))
     = 3%Z.
Proof.
  split; [simpl; lia|].
  exact (proj1 (@generate_estimation_windows_spec nat [1; 2; 3; 4; 5]%nat 2%Z
                  ltac:(simpl; lia))).
Defined.

(** ** The constructor arguments of BetaBMA (C1, C10) *)

Ltac unfold_monad := unfold mbind, get, lift, ret, raise in *.

(** [BetaBMA.fit] reads the instance only through its parent part, and
    leaves the instance as it was. *)
Lemma BMA_fit_locals_reads_base L dof_r :
  exists r : BetaForecastCombination -> result fit_locals,
    forall self : BetaBMA,
      BMA_fit_locals L dof_r self = (r (base self), self).
Proof.
  exists (fun b =>
    data_matrix <- hstack2 (c_exog b) (c_endog b) ;;
    beta_w <- generate_betas L
                (generate_estimation_windows (window b) data_matrix) ;;
    bs <- generate_betas L [data_matrix] ;;
    fit_steps L (generate_estimation_windows (window b) data_matrix)
              beta_w (add_intercept bs) dof_r).
  intros s. unfold BMA_fit_locals. unfold_monad. unfold bind.
  destruct (hstack2 _ _) as [dm|e]; [|reflexivity].
  destruct (generate_betas L (generate_estimation_windows _ dm)) as [bw|e];
    [|reflexivity].
  destruct (generate_betas L [dm]) as [bs|e]; reflexivity.
Qed.

Lemma BMA_fit_locals_same_base L dof_r (self1 self2 : BetaBMA) :
  base self1 = base self2 ->
  fst (BMA_fit_locals L dof_r self1) = fst (BMA_fit_locals L dof_r self2).
Proof.
  intros H. destruct (BMA_fit_locals_reads_base L dof_r) as [r Hr].
  now rewrite (Hr self1), (Hr self2), H.
Qed.

Lemma BMA_fit_same_base L dof_r (self1 self2 : BetaBMA) :
  base self1 = base self2 ->
  fst (BMA_fit L dof_r self1) = fst (BMA_fit L dof_r self2).
Proof.
  intros H. pose proof (BMA_fit_locals_same_base L dof_r self1 self2 H) as E.
  unfold BMA_fit. unfold_monad.
  destruct (BMA_fit_locals L dof_r self1) as [[l1|e1] s1],
           (BMA_fit_locals L dof_r self2) as [[l2|e2] s2];
    simpl in *; congruence.
Qed.

(** The window given to the constructor of BetaBMA is dropped: the
    instance carries the default of the parent class. *)
Lemma BetaBMA_init_window exog endog w s :
  window (base (BetaBMA_init exog endog w s)) = default_window.
Proof. reflexivity. Qed.

Lemma BetaBMA_init_any_window L exog endog w w' s dof_r :
  BMA_fit L dof_r (BetaBMA_init exog endog w s)
  = BMA_fit L dof_r (BetaBMA_init exog endog w' s).
Proof. reflexivity. Qed.

(** C1 (the code departs from it). On 23 observations an instance
    constructed with [window = 5] fits over two expanding windows of
    lengths 21 and 22, not over eighteen windows starting at length 5: the
    constructor does not pass [window] on to the parent class. *)
Theorem BetaBMA_fit_windows_at_window_5 :
  match BMA_fit_locals rational_lib 1 (BetaBMA_init exog23 endog23 5 None) with
  | (Ok locals, _) =>
      map (@length (Qc * Qc)) (training_windows locals) = [21; 22]%nat
  | (Err _, _) => False
  end.
Proof. vm_compute. reflexivity. Qed.

(** C10. Two BetaBMA instances that differ only in the [shrinkage]
    argument return the same forecast (or raise the same exception) for
    every [dof_r]. *)
Theorem BetaBMA_fit_independent_of_shrinkage :
  forall (L : NumLib) (exog endog : list Qc) (w : Z)
         (shrinkage1 shrinkage2 : option Qc) (dof_r : Z),
    fst (BMA_fit L dof_r (BetaBMA_init exog endog w shrinkage1))
    = fst (BMA_fit L dof_r (BetaBMA_init exog endog w shrinkage2)).
Proof.
  intros. apply BMA_fit_same_base. reflexivity.
Qed.

(** ** The estimators leave the instance unchanged (C9) *)

Lemma weighted_ols_frame X y w (self : Beta) :
  snd (weighted_ols X y w false self) = self.
Proof. reflexivity. Qed.

(** With [demean] the view is written: the design matrix changes. *)
Example weighted_ols_demean_writes :
  exog_mat (snd (weighted_ols XFull endog3 None true (Beta_init exog3 endog3)))
  <> exog_mat (Beta_init exog3 endog3).
Proof. vm_compute. discriminate. Qed.

Lemma ols_frame adjusted (self : Beta) : snd (ols adjusted self) = self.
Proof.
  unfold ols. unfold_monad. unfold weighted_ols.
  destruct (wls _ _ _); [destruct adjusted|]; reflexivity.
Qed.

Lemma vasicek_frame L beta_prior se_prior (self : Beta) :
  snd (vasicek L beta_prior se_prior self) = self.
Proof.
  unfold vasicek. unfold_monad. unfold weighted_ols.
  destruct (wls _ _ _); [|reflexivity].
  destruct (broadcast2 _ _ _); reflexivity.
Qed.

Lemma welch_frame L delta rho (self : Beta) :
  snd (welch L delta rho self) = self.
Proof.
  unfold welch. unfold_monad. unfold weighted_ols.
  destruct (broadcast2 qmin _ _); [|reflexivity].
  destruct (broadcast2 qmax _ _); [|reflexivity].
  destruct (np_clip _ _ _); [|reflexivity].
  destruct (wls _ _ _); reflexivity.
Qed.

Lemma robeco_frame L corr_target vol_target gamma phi (self : Beta) :
  snd (robeco L corr_target vol_target gamma phi self) = self.
Proof.
  unfold robeco. unfold_monad.
  destruct (corrcoef01 _ _ _); reflexivity.
Qed.

Lemma scholes_williams_frame L (self : Beta) :
  snd (scholes_williams L self) = self.
Proof.
  unfold scholes_williams. unfold_monad. unfold weighted_ols.
  destruct (wls (deref self XTail) _ _); [|reflexivity].
  destruct (wls (deref self XInit) _ _); [|reflexivity].
  destruct (wls (deref self XFull) _ _); [|reflexivity].
  destruct (corrcoef01 _ _ _); reflexivity.
Qed.

(** C9. No public estimator of [Beta] changes the instance: after [ols],
    [vasicek], [welch], [robeco] or [scholes_williams], whatever the
    arguments and whether or not the call raises, [self.exog],
    [self.endog], [self.n_obs] and [self.exog_mat] are what they were. *)
Theorem Beta_estimators_do_not_mutate :
  forall (L : NumLib) (self : Beta),
    (forall adjusted, snd (ols adjusted self) = self)
    /\ (forall beta_prior se_prior,
          snd (vasicek L beta_prior se_prior self) = self)
    /\ (forall delta rho, snd (welch L delta rho self) = self)
    /\ (forall corr_target vol_target gamma phi,
          snd (robeco L corr_target vol_target gamma phi self) = self)
    /\ snd (scholes_williams L self) = self.
Proof.
  intros L self. repeat split; intros.
  - apply ols_frame.
  - apply vasicek_frame.
  - apply welch_frame.
  - apply robeco_frame.
  - apply scholes_williams_frame.
Qed.

(** ** The enumeration of estimator subsets (C4) *)

Lemma combinations_length {A} (l : list A) :
  forall k, length (combinations l k) = binomial (length l) k.
Proof.
  induction l as [|x xs IH]; intros [|k]; simpl; try reflexivity.
  now rewrite length_app, length_map, !IH.
Qed.

Lemma increasing_below_weaken n lo c :
  increasing_below n (S lo) c = true -> increasing_below n lo c = true.
Proof.
  destruct c as [|x c]; cbn [increasing_below]; [reflexivity|].
  rewrite !andb_true_iff, !Nat.leb_le. intuition lia.
Qed.

(** The combinations of [lo, lo+1, .., lo+m-1] taken [k] at a time are
    the strictly increasing lists of [k] indices in that range. *)
Lemma combinations_seq_iff m :
  forall lo k c,
    In c (combinations (seq lo m) k)
    <-> increasing_below (lo + m) lo c = true /\ length c = k.
Proof.
  induction m as [|m IH]; intros lo k c.
  - destruct k as [|k]; simpl.
    + split.
      * intros [<-|[]]. split; reflexivity.
      * intros [_ Hl]. destruct c; [now left | discriminate].
    + split; [intros []|].
      intros [Hi Hl]. destruct c as [|x c]; [discriminate|].
      cbn [increasing_below] in Hi.
      rewrite !andb_true_iff, Nat.leb_le, Nat.ltb_lt in Hi. lia.
  - destruct k as [|k].
    + simpl. split.
      * intros [<-|[]]. split; reflexivity.
      * intros [_ Hl]. destruct c; [now left | discriminate].
    + change (combinations (seq lo (S m)) (S k))
        with (map (cons lo) (combinations (seq (S lo) m) k)
              ++ combinations (seq (S lo) m) (S k)).
      rewrite in_app_iff, in_map_iff.
      replace (lo + S m)%nat with (S lo + m)%nat by lia.
      split.
      * intros [(c' & <- & Hc')|Hc].
        -- apply IH in Hc'. destruct Hc' as [Hi Hl]. split.
           ++ cbn [increasing_below]. rewrite Hi.
              rewrite !andb_true_iff, Nat.leb_le, Nat.ltb_lt. lia.
           ++ cbn [length]. now rewrite Hl.
        -- apply IH in Hc. destruct Hc as [Hi Hl]. split; [|exact Hl].
           now apply increasing_below_weaken.
      * intros [Hi Hl]. destruct c as [|x c]; [discriminate|].
        cbn [increasing_below length] in Hi, Hl.
        rewrite !andb_true_iff, Nat.leb_le, Nat.ltb_lt in Hi.
        destruct Hi as [[Hlo Hhi] Hc].
        destruct (Nat.eq_dec x lo) as [->|Hne].
        -- left. exists c. split; [reflexivity|]. apply IH. split; [exact Hc|lia].
        -- right. apply IH. split; [|cbn [length]; lia].
           cbn [increasing_below].
           rewrite Hc, !andb_true_iff, Nat.leb_le, Nat.ltb_lt. lia.
Qed.

Lemma nodupb_sound l : nodupb l = true -> NoDup l.
Proof.
  induction l as [|x l IH]; simpl; intros H; constructor.
  - apply andb_true_iff in H. destruct H as [H _].
    apply negb_true_iff in H. intros Hin.
    assert (E : existsb (combo_eqb x) l = true).
    { apply existsb_exists. exists x. split; [exact Hin|].
      unfold combo_eqb. destruct (list_eq_dec Nat.eq_dec x x); congruence. }
    congruence.
  - apply IH. apply andb_true_iff in H. tauto.
Qed.

(** The enumeration over six estimators. *)
Lemma generate_beta_combinations_six (data : list Qc) :
  length data = 6%nat ->
  generate_beta_combinations data
  = concat (map (combinations (seq 0 6)) (seq 1 5))
  /\ length (generate_beta_combinations data) = 62%nat
  /\ (forall k, (1 <= k <= 5)%nat ->
        count_size k (generate_beta_combinations data) = binomial 6 k)
  /\ (forall c, In c (generate_beta_combinations data)
        <-> increasing_below 6 0 c = true /\ (1 <= length c <= 5)%nat)
  /\ NoDup (generate_beta_combinations data)
  /\ sorted_by combo_ltb (generate_beta_combinations data) = true.
Proof.
  intros H.
  assert (E : generate_beta_combinations data
              = concat (map (combinations (seq 0 6)) (seq 1 5))).
  { unfold generate_beta_combinations, range2. now rewrite H. }
  rewrite E. split; [reflexivity|]. split; [reflexivity|]. split.
  { intros k Hk.
    assert (Hk' : (k = 1 \/ k = 2 \/ k = 3 \/ k = 4 \/ k = 5)%nat) by lia.
    destruct Hk' as [->|[->|[->|[->| ->]]]]; reflexivity. }
  split.
  { intros c. rewrite in_concat. split.
    - intros (l & Hl & Hc). apply in_map_iff in Hl.
      destruct Hl as (k & <- & Hk). apply in_seq in Hk.
      apply (combinations_seq_iff 6 0 k c) in Hc. simpl in Hc.
      destruct Hc as [Hi Hl]. split; [exact Hi|lia].
    - intros [Hi Hl]. exists (combinations (seq 0 6) (length c)). split.
      + apply in_map. apply in_seq. lia.
      + apply (combinations_seq_iff 6 0). split; [exact Hi|reflexivity]. }
  split.
  - apply nodupb_sound. vm_compute. reflexivity.
  - vm_compute. reflexivity.
Qed.

(** ** The structure of a successful [BetaBMA.fit] *)

Lemma bind_Ok {A B} (r : result A) (k : A -> result B) b :
  bind r k = Ok b -> exists a, r = Ok a /\ k a = Ok b.
Proof. destruct r as [a|e]; simpl; [eauto | discriminate]. Qed.

Lemma hstack_cols_rows cols :
  Forall (fun r => length r = length cols) (hstack_cols cols).
Proof.
  destruct cols as [|c cs]; [constructor|].
  unfold hstack_cols. apply Forall_forall. intros r Hr.
  apply in_map_iff in Hr. destruct Hr as (i & <- & _).
  now rewrite length_map.
Qed.

(** Every row of the estimator matrix has the six estimates. *)
Lemma generate_betas_rows L windows rows :
  generate_betas L windows = Ok rows ->
  Forall (fun r => length r = 6%nat) rows.
Proof.
  unfold generate_betas, generate_betas_kw. unfold_monad.
  repeat match goal with
         | |- context [map_method ?m ?o] =>
             destruct (map_method m o) as [[?|?] ?]; simpl; try discriminate
         end.
  intros H. injection H as <-.
  match goal with
  | |- Forall _ (map _ (seq 0 (length ?c0))) =>
      exact (hstack_cols_rows [c0; _; _; _; _; _])
  end.
Qed.

Lemma BMA_fit_locals_Ok L dof_r self locals :
  fst (BMA_fit_locals L dof_r self) = Ok locals ->
  exists data_matrix bw bs,
    hstack2 (c_exog (base self)) (c_endog (base self)) = Ok data_matrix
    /\ generate_betas L
         (generate_estimation_windows (window (base self)) data_matrix)
       = Ok bw
    /\ generate_betas L [data_matrix] = Ok bs
    /\ fit_steps L
         (generate_estimation_windows (window (base self)) data_matrix)
         bw (add_intercept bs) dof_r = Ok locals.
Proof.
  unfold BMA_fit_locals. unfold_monad.
  destruct (hstack2 _ _) as [dm|e]; [|discriminate].
  destruct (generate_betas L (generate_estimation_windows _ dm)) as [bw|e]
    eqn:Ew; [|discriminate].
  destruct (generate_betas L [dm]) as [bs|e] eqn:Es; [|discriminate].
  simpl. intros H. exists dm, bw, bs. repeat split; auto.
Qed.

Lemma fit_steps_Ok L tw bw bs dof_r locals :
  fit_steps L tw bw bs dof_r = Ok locals ->
  exists row0 rest g ssr_r ms,
    bw = row0 :: rest
    /\ py_inverse (Nat.min (length tw)
                           (length (generate_beta_combinations row0))) = Ok g
    /\ restricted_ssr L bw dof_r = Ok ssr_r
    /\ mapM (subset_model L bw bs) (generate_beta_combinations row0) = Ok ms
    /\ training_windows locals = tw
    /\ beta_w locals = bw
    /\ combos locals = generate_beta_combinations row0
    /\ l_g locals = g
    /\ l_a_g locals = g / (1 + g)
    /\ l_ssr_r locals = ssr_r
    /\ models locals = ms
    /\ w_k locals
       = map (fun m => model_weight L g (g / (1 + g)) ssr_r dof_r
                                    (fst (fst m)) (snd m)) ms
    /\ w_final locals = normalize (w_k locals).
Proof.
  unfold fit_steps. intros H.
  destruct bw as [|row0 rest]; [discriminate|]. simpl bind in H.
  apply bind_Ok in H. destruct H as (g & Hg & H).
  apply bind_Ok in H. destruct H as (ssr_r & Hr & H).
  apply bind_Ok in H. destruct H as (ms & Hm & H).
  injection H as <-. exists row0, rest, g, ssr_r, ms. simpl.
  repeat split; assumption.
Qed.

Lemma BMA_fit_combos L dof_r self locals :
  fst (BMA_fit_locals L dof_r self) = Ok locals ->
  exists row0, combos locals = generate_beta_combinations row0
               /\ length row0 = 6%nat.
Proof.
  intros H. apply BMA_fit_locals_Ok in H.
  destruct H as (dm & bw & bs & _ & Hbw & _ & Hsteps).
  apply fit_steps_Ok in Hsteps.
  destruct Hsteps as (row0 & rest & g & ssr_r & ms & -> & _ & _ & _ & _ & _
                      & -> & _).
  apply generate_betas_rows in Hbw. exists row0. split; [reflexivity|].
  now inversion Hbw.
Qed.


(** C4. Whenever [BetaBMA.fit] gets as far as its local variables, the
    list [combos] holds exactly the subsets of the estimator indices
    [{0..5}] of size 1 to 5: 62 of them, [C(6,k)] of each size [k], each
    once (so neither the empty nor the full set), ordered by size and
    lexicographically within a size. *)
Theorem BMA_fit_enumerates_subsets :
  forall (L : NumLib) (dof_r : Z) (self : BetaBMA) (locals : fit_locals),
    fst (BMA_fit_locals L dof_r self) = Ok locals ->
    combos locals = concat (map (combinations (seq 0 6)) (seq 1 5))
    /\ length (combos locals) = 62%nat
    /\ (forall k, (1 <= k <= 5)%nat ->
          count_size k (combos locals) = binomial 6 k)
    /\ (forall c, In c (combos locals)
          <-> increasing_below 6 0 c = true /\ (1 <= length c <= 5)%nat)
    /\ NoDup (combos locals)
    /\ sorted_by combo_ltb (combos locals) = true.
Proof.
  intros L dof_r self locals H.
  destruct (BMA_fit_combos L dof_r self H) as (row0 & -> & Hlen).
  now apply generate_beta_combinations_six.
Qed.

Lemma BMA_fit_enumerates_subsets_witness :
  exists locals,
    fst (BMA_fit_locals rational_lib 1 bma23) = Ok locals
    /\ length (combos locals) = 62%nat.
Proof.
  destruct (fst (BMA_fit_locals rational_lib 1 bma23)) as [locals|e] eqn:E.
  - exists locals. split; [reflexivity|].
    exact (proj1 (proj2 (BMA_fit_enumerates_subsets rational_lib 1 bma23 E))).
  - exfalso. vm_compute in E. discriminate E.
Defined.

(** ** Rational arithmetic *)










(** ** The model weights of BetaBMA.fit (C5) *)








(** ** Normalisation of the model weights (C6) *)















Section Positive_power.

Variable L : NumLib.
Hypothesis np_power_pos : forall b e : Qc, 0 < b -> 0 < np_power L b e.



End Positive_power.






(** ** Welch's estimator without winsorised observations (C8) *)

Lemma qleb_le a b : qleb a b = true <-> a <= b.
Proof.
  unfold qleb. rewrite Qcle_alt.
  destruct (Qccompare a b); split; congruence.
Qed.

Lemma qmax_r y lo : lo <= y -> qmax y lo = y.
Proof.
  intros H. unfold qmax. destruct (qleb y lo) eqn:E; [|reflexivity].
  apply qleb_le in E. now apply Qcle_antisym.
Qed.

Lemma qmin_r hi y : y <= hi -> qmin hi y = y.
Proof.
  intros H. unfold qmin. destruct (qleb hi y) eqn:E; [|reflexivity].
  apply qleb_le in E. now apply Qcle_antisym.
Qed.

Lemma broadcast2_same_length f a b :
  length a = length b ->
  broadcast2 f a b = Ok (map (fun p => f (fst p) (snd p)) (combine a b)).
Proof.
  intros H. unfold broadcast2. now rewrite H, Nat.eqb_refl.
Qed.

Lemma combine_map_map {A} (f g : A -> Qc) (l : list A) :
  combine (map f l) (map g l) = map (fun x => (f x, g x)) l.
Proof. induction l as [|x l IH]; simpl; congruence. Qed.

(** Clipping to bounds that already hold returns the vector. *)
Lemma clip_within (lo hi : Qc -> Qc) :
  forall exog endog,
    length exog = length endog ->
    (forall x y, In (x, y) (combine exog endog) -> lo x <= y /\ y <= hi x) ->
    np_clip endog (map lo exog) (map hi exog) = Ok endog.
Proof.
  intros exog endog Hlen Hin. unfold np_clip.
  rewrite broadcast2_same_length by now rewrite length_map.
  cbn [bind].
  rewrite broadcast2_same_length
    by now rewrite !length_map, length_combine, length_map, Hlen, Nat.min_id.
  f_equal. revert endog Hlen Hin.
  induction exog as [|x exog IH]; intros [|y endog] Hlen Hin;
    try discriminate; [reflexivity|].
  cbn [map combine fst snd].
  destruct (Hin x y (or_introl eq_refl)) as [Hlo Hhi].
  rewrite (qmax_r Hlo), (qmin_r Hhi). f_equal.
  apply IH; [now injection Hlen|].
  intros x' y' H'. apply Hin. now right.
Qed.

Lemma decay_weights_zero L n :
  np_exp L 0 = 1 -> decay_weights L 0 n = repeat 1 n.
Proof.
  intros H0. unfold decay_weights.
  rewrite (map_ext (fun k => np_exp L (- 0 * qn k)) (fun _ => 1)).
  - assert (E : forall l : list nat,
               map (fun _ => 1) l = repeat 1 (length l)).
    { induction l as [|k l IH]; simpl; congruence. }
    now rewrite E, length_rev, length_seq.
  - intros k. replace (- 0 * qn k) with 0 by ring. exact H0.
Qed.

Lemma broadcast2_map_map f (g h : Qc -> Qc) l :
  broadcast2 f (map g l) (map h l) = Ok (map (fun x => f (g x) (h x)) l).
Proof.
  rewrite broadcast2_same_length by now rewrite !length_map.
  now rewrite combine_map_map, map_map.
Qed.

Lemma wls_unit_weights X y :
  wls X y (Some (repeat 1 (length X))) = wls X y None.
Proof. reflexivity. Qed.

(** C8, as the code has it. With [delta = 3] and [rho = 0] the
    winsorisation band of an observation lies between [(1 - 3) exog_t] and
    [(1 + 3) exog_t]; if every [endog_t] is inside its band, [welch()]
    returns what [ols()] returns. *)
Theorem welch_equals_ols_inside_band :
  forall L : NumLib,
    np_exp L 0 = 1 ->
    forall exog endog : list Qc,
      length exog = length endog ->
      (forall x y, In (x, y) (combine exog endog) ->
         qmin ((1 - qz 3) * x) ((1 + qz 3) * x) <= y
         /\ y <= qmax ((1 - qz 3) * x) ((1 + qz 3) * x)) ->
      welch L (qz 3) 0 (Beta_init exog endog)
      = ols false (Beta_init exog endog).
Proof.
  intros L Hexp xs ys Hlen Hband.
  unfold welch, ols. unfold_monad. cbn [exog endog n_obs Beta_init].
  rewrite !broadcast2_map_map.
  rewrite (clip_within
             (fun x => qmin ((1 - qz 3) * x) ((1 + qz 3) * x))
             (fun x => qmax ((1 - qz 3) * x) ((1 + qz 3) * x))
             xs ys Hlen Hband).
  rewrite (decay_weights_zero L (length xs) Hexp).
  unfold weighted_ols. cbn [deref exog_mat Beta_init].
  rewrite <- (length_map (fun x => (1, x)) xs) at 1.
  rewrite wls_unit_weights.
  destruct (wls _ _ _); reflexivity.
Qed.

Lemma welch_equals_ols_inside_band_witness :
  welch rational_lib (qz 3) 0 (Beta_init exog3 endog3_band)
  = ols false (Beta_init exog3 endog3_band).
Proof.
  apply welch_equals_ols_inside_band.
  - apply Qc_is_canon. reflexivity.
  - reflexivity.
  - intros x y H. simpl in H.
    destruct H as [H|[H|[H|[]]]]; injection H as <- <-;
      split; vm_compute; discriminate.
Defined.

Ltac qc_eval :=
  match goal with
  | |- ?r = Ok ?q =>
      let H := fresh in
      assert (H : exists v, r = Ok v /\ v = q)
        by (eexists; split;
            [vm_compute; reflexivity
            | apply Qc_is_canon; vm_compute; reflexivity]);
      destruct H as (? & -> & ->); reflexivity
  end.

(** C8 fails for observations that satisfy [|endog| <= 3 |exog|] but lie
    below the band: with [endog = -3 exog] the bound holds, [ols()] is -3
    and [welch()], which clips [endog] to [-2 exog], is -2. *)
Lemma welch_differs_from_ols_within_3x :
  forallb (fun p => qleb (qabs (snd p)) (qz 3 * qabs (fst p)))
          (combine exog3 endog3) = true
  /\ fst (ols false (Beta_init exog3 endog3)) = Ok (qz (-3))
  /\ fst (welch rational_lib (qz 3) 0 (Beta_init exog3 endog3))
     = Ok (qz (-2)).
Proof.
  split; [vm_compute; reflexivity|]. split; qc_eval.
Qed.

(** ** Failures of [fit] and the retained weights (C2, C3) *)






Lemma hstack2_mismatch a b :
  length a <> length b -> hstack2 a b = Err ValueError.
Proof.
  intros H. unfold hstack2.
  now rewrite (proj2 (Nat.eqb_neq _ _) H).
Qed.

Lemma hstack2_Ok_length a b ab :
  hstack2 a b = Ok ab -> length a = length b.
Proof.
  unfold hstack2. destruct (Nat.eqb_spec (length a) (length b)); congruence.
Qed.

(** C3, as the code has it. Of the invalid configurations only series of
    different lengths are rejected: both [fit] methods raise [ValueError]
    while stacking the two series, before any regression and with the
    instance unchanged. *)
Theorem fit_rejects_mismatched_lengths :
  forall (L : NumLib) (c : BetaForecastCombination) (b : BetaBMA) (dof_r : Z),
    length (c_exog c) <> length (c_endog c) ->
    length (c_exog (base b)) <> length (c_endog (base b)) ->
    fit L c = (Err ValueError, c)
    /\ BMA_fit L dof_r b = (Err ValueError, b).
Proof.
  intros L c b dof_r Hc Hb. split.
  - unfold fit. unfold_monad.
    destruct (hstack2 (slice_to _ _) _) as [train|e] eqn:Etrain.
    + apply hstack2_Ok_length in Etrain.
      rewrite hstack2_mismatch; [reflexivity|].
      pose proof (slice_partition (c_exog c)
                    (Z.of_nat (c_n_obs c) - window c)) as Px.
      pose proof (slice_partition (c_endog c)
                    (Z.of_nat (c_n_obs c) - window c)) as Py.
      lia.
    + unfold hstack2 in Etrain.
      destruct (Nat.eqb _ _); [discriminate|]. now injection Etrain as <-.
  - unfold BMA_fit, BMA_fit_locals. unfold_monad.
    now rewrite (hstack2_mismatch _ _ Hb).
Qed.

Lemma fit_rejects_mismatched_lengths_witness :
  fit rational_lib combination_mismatch = (Err ValueError, combination_mismatch)
  /\ BMA_fit rational_lib 1 bma_mismatch = (Err ValueError, bma_mismatch).
Proof.
  apply fit_rejects_mismatched_lengths; simpl; lia.
Defined.

(** C3 fails for the other configurations. With two training windows and
    [dof_r = 2] nothing is rejected: [BetaBMA.fit] completes and returns
    NaN. A window of 0 or -1 is accepted by the constructor, and [fit]
    fails only inside the estimators, on the empty window they are given. *)
Lemma invalid_configuration_not_rejected :
  fst (BMA_fit rational_lib 2 bma23) = Ok NaN
  /\ window (BetaForecastCombination_init exog8 endog8 0) = 0%Z
  /\ fst (fit rational_lib (BetaForecastCombination_init exog8 endog8 0))
     = Err LinAlgError
  /\ fst (fit rational_lib (BetaForecastCombination_init exog8 endog8 (-1)))
     = Err LinAlgError.
Proof.
  repeat split; vm_compute; reflexivity.
Qed.
